(** * Verification of the rui_lopez lazy texture, text cache and SDL build pipeline

    Shallow embedding of [src/src/playground.rs] ([LazyTexture],
    [backup_update_texture], [LazySDLText::build_text]) and of
    [src/src/engines.rs] / [src/src/elements.rs] (components and the
    [SDLComponent::build] implementations).

    Conventions:
    - [u32] and [u8] values are [Z]; the wrap-around of [u32] arithmetic is
      written out with [mod 2^32] (release-profile semantics; the debug
      profile panics instead).
    - A Rust panic ([todo!()], division by zero, [expect]) is an explicit
      constructor of the result type. *)

From Stdlib Require Import String ZArith List Bool Lia.
Import ListNotations.
Open Scope Z_scope.

Definition u32_modulus : Z := 2 ^ 32.

(** ** glyph_brush [Rectangle<u32>]: [min] and [max] corners as (x, y). *)
Record Rectangle := mkRect { min : Z * Z; max : Z * Z }.

Definition rect_width (r : Rectangle) : Z := fst (max r) - fst (min r).
Definition rect_height (r : Rectangle) : Z := snd (max r) - snd (min r).

(** ** [struct LazyTexture]

    The [internal_update] field is always [backup_update_texture]: it is
    set by [new_empty], the only constructor, and never reassigned; it is
    embedded as the function [backup_update_texture] below. *)
Record LazyTexture := mkLazyTexture {
  raw_data : list Z;      (* Vec<u8> *)
  tex_dims : Z * Z        (* (u32, u32) = (width, height) *)
}.

Definition new_empty : LazyTexture := mkLazyTexture [] (0, 0).

(** [Vec::resize(n, value)]: truncate to [n], or extend with copies of
    [value]. *)
Definition vec_resize {A} (v : list A) (n : nat) (value : A) : list A :=
  if (n <=? length v)%nat then firstn n v
  else v ++ repeat value (n - length v).

(** [fn resize(&mut self, dims)]: [(dims.0 * dims.1) as usize] is a [u32]
    product. *)
Definition resize (t : LazyTexture) (dims : Z * Z) : LazyTexture :=
  mkLazyTexture
    (vec_resize (raw_data t) (Z.to_nat ((fst dims * snd dims) mod u32_modulus)) 0)
    dims.

(** Result of the [for (i, a) in self.raw_data.iter_mut().enumerate()] loop
    of [lazy_update]: the loop ran to the end ([LDone], with the bytes of
    [tex_data] not consumed), left early on [ok_or(SizeMismatch)?]
    ([LShort]), or panicked on a division by zero ([LPanic]). The buffer is
    mutated in place, so both non-panicking results carry it. *)
Inductive loop_res :=
| LDone (buf rem : list Z)
| LShort (buf : list Z)
| LPanic.

Definition cons_res (b : Z) (res : loop_res) : loop_res :=
  match res with
  | LDone buf rem => LDone (b :: buf) rem
  | LShort buf => LShort (b :: buf)
  | LPanic => LPanic
  end.

(** One pass over [raw_data] from index [i]; [data] is [data_iter].
    [let y = i as u32 / self.tex_dims.1;] and
    [let x = i as u32 % self.tex_dims.0;] as in the source. *)
Fixpoint lazy_update_loop (dims : Z * Z) (rect : Rectangle) (i : Z)
    (raw data : list Z) : loop_res :=
  match raw with
  | [] => LDone [] data
  | a :: rest =>
      if snd dims =? 0 then LPanic else
      let y := (i mod u32_modulus) / snd dims in
      if (snd (min rect) <=? y) && (y <? snd (max rect)) then
        if fst dims =? 0 then LPanic else
        let x := (i mod u32_modulus) mod fst dims in
        if (fst (min rect) <=? x) && (x <? fst (max rect)) then
          match data with
          | [] => LShort (a :: rest)
          | d :: data' => cons_res d (lazy_update_loop dims rect (i + 1) rest data')
          end
        else cons_res a (lazy_update_loop dims rect (i + 1) rest data)
      else cons_res a (lazy_update_loop dims rect (i + 1) rest data)
  end.

(** [Result<(), SizeMismatch>] together with the texture after the call
    (the call mutates [self] also on the error path), or a panic. *)
Inductive update_result :=
| UOk (t : LazyTexture)
| USizeMismatch (t : LazyTexture)
| UPanic.

(** [fn lazy_update(&mut self, rect, tex_data) -> Result<(), SizeMismatch>] *)
Definition lazy_update (t : LazyTexture) (rect : Rectangle) (tex_data : list Z)
    : update_result :=
  match lazy_update_loop (tex_dims t) rect 0 (raw_data t) tex_data with
  | LDone buf [] => UOk (mkLazyTexture buf (tex_dims t))
  | LDone buf (_ :: _) => USizeMismatch (mkLazyTexture buf (tex_dims t))
  | LShort buf => USizeMismatch (mkLazyTexture buf (tex_dims t))
  | LPanic => UPanic
  end.

(** ** Texture materialisation: [create_texture] and [backup_update_texture] *)

(** [struct Color { r, g, b, a: u8 }] *)
Record Color := mkColor { r : Z; g : Z; b : Z; a : Z }.

(** [sdl2::pixels::Color::to_u32] is [SDL_MapRGBA]. The texture is created
    as [PixelFormatEnum::RGBA32], which is [ABGR8888] on a little-endian
    host: R in bits 0..7, G in 8..15, B in 16..23, A in 24..31, no loss. *)
Definition to_u32_abgr8888 (c : Color) : Z :=
  Z.lor (Z.lor (Z.lor (Z.shiftl (r c) 0) (Z.shiftl (g c) 8)) (Z.shiftl (b c) 16))
        (Z.land (Z.shiftl (a c) 24) (Z.shiftl 255 24)).

(** [u32::to_ne_bytes] on a little-endian host. *)
Definition to_ne_bytes (u : Z) : list Z :=
  [Z.land u 255; Z.land (Z.shiftr u 8) 255;
   Z.land (Z.shiftr u 16) 255; Z.land (Z.shiftr u 24) 255].

(** The [new_data] that [backup_update_texture] builds and hands to
    [texture.update]: for every [alpha] of [raw_data], the colour
    [{ r: color.r, g: color.g, b: color.b, a: alpha }] in native bytes. *)
Fixpoint backup_update_texture (raw : list Z) (color : Color) : list Z :=
  match raw with
  | [] => []
  | alpha :: rest =>
      to_ne_bytes (to_u32_abgr8888 (mkColor (r color) (g color) (b color) alpha))
      ++ backup_update_texture rest color
  end.

(** Row pitch passed to [texture.update]: [bytes_per_pixel * rect.width()]. *)
Definition rgba32_pitch (width : Z) : Z := 4 * width.

(** The image a materialised texture holds. *)
Record TextureImage := mkTextureImage {
  img_width : Z; img_height : Z; img_pitch : Z; img_pixels : list Z
}.

(** [fn create_texture(&self, tex_creator, color)] when it succeeds: a
    [tex_dims]-sized static RGBA32 texture, filled by [internal_update]
    (always [backup_update_texture]) over the full rectangle from
    [raw_data]. The [Err] of [create_texture_static] (a 0x0 or oversized
    texture) and the panic of [texture.update(..).expect(..)] are not
    embedded: this is the image of the success path. *)
Definition create_texture (t : LazyTexture) (color : Color) : TextureImage :=
  mkTextureImage (fst (tex_dims t)) (snd (tex_dims t))
    (rgba32_pitch (fst (tex_dims t)))
    (backup_update_texture (raw_data t) color).

(** ** Drawable geometry ([engines.rs]) *)

(** [sys::SDL_Vertex]; the [f32] coordinates are kept as [Z]: every
    coordinate the build functions write is an integral literal. *)
Record SDL_Vertex := mkVertex {
  position : Z * Z;
  vcolor : Z * Z * Z * Z;     (* SDL_Color { r, g, b, a } *)
  tex_coord : Z * Z
}.

Record SDLPolygon := mkPolygon { vers : list SDL_Vertex; inds : list Z }.

(** [tex: Option<sys::SDL_Texture>]: an opaque texture handle. *)
Record SDLTexturedPolygon := mkTexturedPolygon {
  poly : SDLPolygon; tex : option nat
}.

Record SDLBody := mkSDLBody { body_name : string; polygons : list SDLTexturedPolygon }.

(** ** Components ([elements.rs]) *)

Inductive Dimension :=
| Relative (delta : Z)
| Percentage (p : Z)
| Pixels (n : Z).

Record MenuItem := mkMenuItem { item_title : string }.

Inductive Menu := mkMenu (menu_title : string) (menu_children : list Submenu)
with Submenu :=
| SubMenu (m : Menu)
| SubMenuItem (i : MenuItem).

Record MainMenu := mkMainMenu { menu : Menu }.

Record Event := mkEvent {}.

Record Button := mkButton { button_title : string; on_action : Event -> bool }.

Record TextField := mkTextField { text : string; editable : bool }.

Record StatusBar := mkStatusBar {}.

(** [struct SDLText] of [engines.rs]. *)
Record SDLText := mkSDLText {
  sdltext_text : string; native_size : Z; sdltext_poly : SDLTexturedPolygon
}.

(** The implementors of [trait Component]; [Container::children] is a
    [Vec<Box<dyn Component>>] and may mix them. *)
Inductive Component :=
| CMainMenu (m : MainMenu)
| CContainer (c : Container)
| CRUIIcon
| CSDLText (t : SDLText)
| CButton (bt : Button)
| CTextField (tf : TextField)
with Container :=
| mkContainer (width : Dimension) (height : Dimension) (children : list Component).

Record Window := mkWindow {
  title : string;
  window_menu : option MainMenu;
  container : option Container;
  status_bar : option StatusBar;
  win_height : Dimension;
  win_width : Dimension
}.

(** [impl Default for Container / Window / Button / TextField] *)
Definition Container_default : Container := mkContainer (Relative (-1)) (Relative (-1)) [].

Definition Window_default : Window :=
  mkWindow "RUI Lopez" None None None (Relative (-1)) (Relative (-1)).

Definition Button_default : Button := mkButton "Button" (fun _ => true).

Definition TextField_default : TextField := mkTextField "TextField" false.

(** ** [SDLComponent::build]

    A [todo!()] body panics: it is the [Todo] outcome. *)
Inductive build_result (A : Type) :=
| Built (x : A)
| Todo.
Arguments Built {A} x.
Arguments Todo {A}.

Definition build_bind {A B} (m : build_result A) (k : A -> build_result B) : build_result B :=
  match m with
  | Built x => k x
  | Todo => Todo
  end.

Definition MainMenu_build (m : MainMenu) (parent : Component) : SDLBody :=
  mkSDLBody "MainMenu" [].

Definition RUIIcon_v0 : SDL_Vertex := mkVertex (400, 150) (255, 0, 0, 255) (0, 0).
Definition RUIIcon_v1 : SDL_Vertex := mkVertex (200, 450) (0, 0, 255, 255) (0, 0).
Definition RUIIcon_v2 : SDL_Vertex := mkVertex (600, 450) (0, 255, 0, 255) (0, 0).

Definition RUIIcon_build (parent : Component) : SDLBody :=
  mkSDLBody "RUIIcon"
    [mkTexturedPolygon (mkPolygon [RUIIcon_v0; RUIIcon_v1; RUIIcon_v2] []) None].

Definition SDLText_build (t : SDLText) (parent : Component) : SDLBody :=
  mkSDLBody "SDLText" [].

(** Dispatch of [SDLComponent::build] (and of [Component::build_dyn],
    which boxes the same body) over the implementors. *)
Definition sdl_build (c : Component) (parent : Component) : build_result SDLBody :=
  match c with
  | CMainMenu m => Built (MainMenu_build m parent)
  | CContainer _ => Todo            (* impl SDLComponent for Container: todo!() *)
  | CRUIIcon => Built (RUIIcon_build parent)
  | CSDLText t => Built (SDLText_build t parent)
  | CButton _ => Todo               (* impl SDLComponent for Button: todo!() *)
  | CTextField _ => Todo            (* impl SDLComponent for TextField: todo!() *)
  end.

(** [SDLWindow::build]: the icon, then the menu if present; the container
    line is commented out in the source. *)
Definition SDLWindow_build (window : Window) : build_result (list SDLBody) :=
  let pseudo := CRUIIcon in
  build_bind (sdl_build CRUIIcon pseudo) (fun icon =>
  match window_menu window with
  | Some m => build_bind (sdl_build (CMainMenu m) pseudo) (fun mb => Built [icon; mb])
  | None => Built [icon]
  end).

(** The window built by [main.rs]. *)
Definition main_menu : MainMenu :=
  mkMainMenu (mkMenu "File" [SubMenuItem (mkMenuItem "Open"); SubMenuItem (mkMenuItem "Exit")]).

Definition main_on_action (e : Event) : bool := true.

Definition main_container : Container :=
  mkContainer (Relative (-1)) (Relative (-1))
    [CTextField TextField_default;
     CButton (mkButton (button_title Button_default) main_on_action)].

Definition main_window : Window :=
  mkWindow "Hello World" (Some main_menu) (Some main_container)
    (status_bar Window_default) (win_height Window_default) (win_width Window_default).

(** ** [LazySDLText::build_text] and its atlas-too-small retry loop *)

(** glyph_brush's [BrushAction<SDLPolygon>] and the result of
    [process_queued]; [BrushError::TextureTooSmall { suggested }] is its
    only error. *)
Inductive BrushAction :=
| Draw (vertices : list SDLPolygon)
| ReDraw.

Inductive BrushResult :=
| BrushOk (act : BrushAction)
| TextureTooSmall (suggested : Z * Z).

(** [struct LazySDLText]; the [f32] scale is kept as [Z]: it is only
    handed to the layout engine. *)
Record LazySDLText := mkLazySDLText {
  ltext : string;
  size : Z;
  color : Color;
  built : list SDLPolygon;
  lazy_tex : LazyTexture
}.

Definition LazySDLText_new (txt : string) (sz : Z) (c : Color) : LazySDLText :=
  mkLazySDLText txt sz c [] new_empty.

Section BuildText.

(** The glyph-layout engine ([GlyphBrush<SDLPolygon>]) is an input: a
    state type with the operations [build_text] calls. *)
Variable Engine : Type.
(** [glyph_brush.queue(section)] *)
Variable queue : Engine -> string -> Z -> Engine.
(** [glyph_brush.process_queued(..)]: the new engine state, the pixel
    updates it hands to the first callback (in order) and its result. *)
Variable process_queued : Engine -> Engine * list (Rectangle * list Z) * BrushResult.
(** [glyph_brush.resize_texture(w, h)] *)
Variable resize_texture : Engine -> Z -> Z -> Engine.
(** Whether [tex_creator.create_texture_static(RGBA32, w, h)] succeeds;
    otherwise [.expect("Hey")] panics. *)
Variable create_texture_ok : Z -> Z -> bool.
(** Whether the SDL side of the pixel callback succeeds ([Rect::new] of
    the [try_into().unwrap()] corners and [backup_update_texture]'s
    [texture.update(..).expect(..)]); otherwise it panics. *)
Variable sdl_update_ok : Rectangle -> list Z -> bool.

(** The pixel callback [|rect, tex_data| { self.lazy_tex.lazy_update(rect,
    tex_data); ... backup_update_texture(..) }] applied to each update in
    order; the [Result] of [lazy_update] is discarded. [None] is a panic. *)
Fixpoint apply_updates (lt : LazyTexture) (ups : list (Rectangle * list Z))
    : option LazyTexture :=
  match ups with
  | [] => Some lt
  | (rect, tex_data) :: rest =>
      match lazy_update lt rect tex_data with
      | UOk lt' | USizeMismatch lt' =>
          if sdl_update_ok rect tex_data then apply_updates lt' rest else None
      | UPanic => None
      end
  end.

(** Outcome of the [loop { .. }]: [break] with [Ok(action)], a panic, or
    still looping when the fuel (an iteration budget of the embedding, not
    of the source) runs out. *)
Inductive loop_outcome :=
| LoopBreak (e : Engine) (lt : LazyTexture) (act : BrushAction)
| LoopPanic
| LoopOutOfFuel.

(** One iteration per unit of fuel; the source has no iteration bound. *)
Fixpoint build_text_loop (fuel : nat) (e : Engine) (lt : LazyTexture) : loop_outcome :=
  match fuel with
  | O => LoopOutOfFuel
  | S fuel' =>
      let '(e1, ups, res) := process_queued e in
      match apply_updates lt ups with
      | None => LoopPanic
      | Some lt1 =>
          match res with
          | BrushOk act => LoopBreak e1 lt1 act
          | TextureTooSmall suggested =>
              let lt2 := resize lt1 suggested in
              if create_texture_ok (fst suggested) (snd suggested)
              then build_text_loop fuel' (resize_texture e1 (fst suggested) (snd suggested)) lt2
              else LoopPanic
          end
      end
  end.

Inductive text_outcome :=
| TextBuilt (e : Engine) (self : LazySDLText) (res : list SDLPolygon)
| TextPanic
| TextOutOfFuel.

(** [fn build_text(&mut self, utils, tex)]: queue the section, run the
    retry loop, then store [Draw] vertices or keep the last ones on
    [ReDraw]; returns [Ok(self.built.clone())]. *)
Definition build_text (fuel : nat) (e : Engine) (self : LazySDLText) : text_outcome :=
  let e0 := queue e (ltext self) (size self) in
  match build_text_loop fuel e0 (lazy_tex self) with
  | LoopBreak e1 lt act =>
      let built' := match act with
                    | Draw vertices => vertices
                    | ReDraw => built self
                    end in
      TextBuilt e1 (mkLazySDLText (ltext self) (size self) (color self) built' lt) built'
  | LoopPanic => TextPanic
  | LoopOutOfFuel => TextOutOfFuel
  end.

End BuildText.

Arguments LoopBreak {Engine} e lt act.
Arguments LoopPanic {Engine}.
Arguments LoopOutOfFuel {Engine}.
Arguments TextBuilt {Engine} e self res.
Arguments TextPanic {Engine}.
Arguments TextOutOfFuel {Engine}.

(** A layout engine that always asks for a 256x256 atlas, with a texture
    creator that accepts that size. *)
Definition stuck_queue (e : unit) (s : string) (z : Z) : unit := tt.
Definition stuck_process (e : unit) : unit * list (Rectangle * list Z) * BrushResult :=
  (tt, [], TextureTooSmall (256, 256)).
Definition stuck_resize (e : unit) (w h : Z) : unit := tt.
Definition always_ok2 (w h : Z) : bool := true.
Definition always_ok_update (rect : Rectangle) (data : list Z) : bool := true.

(** ** [render_geometry] and [SDLWindow::render] *)

(** [x as i32] for a [usize] length. *)
Definition as_i32 (z : Z) : Z :=
  let m := z mod u32_modulus in
  if m <? 2 ^ 31 then m else m - u32_modulus.

(** The arguments of one [SDL_RenderGeometry] call: texture pointer
    ([None] is null), vertices and their count, index list ([None] is the
    null pointer) and its count. *)
Record GeometryCall := mkGeometryCall {
  gc_tex : option nat;
  gc_vers : list SDL_Vertex;
  gc_vers_num : Z;
  gc_inds : option (list Z);
  gc_ind_num : Z
}.

Inductive render_result :=
| RenderOk
| RenderErr          (* Err(format!("Failed at SDL_RenderGeometry {}", ..)) *)
| RenderPanic.

(** Effects on the canvas, in order. *)
Inductive canvas_event :=
| EvSetDrawColor (rgb : Z * Z * Z)
| EvClear
| EvGeometry (call : GeometryCall)
| EvCopy
| EvPresent.

Section Render.

(** The return code of [SDL_RenderGeometry] for a call. *)
Variable sdl_render_geometry : GeometryCall -> Z.
(** Whether [canvas.copy(&texture, None, None)] succeeds; otherwise its
    [unwrap()] panics. *)
Variable copy_ok : bool.

(** [fn render_geometry(canvas, texture, vertices, indices)] (the same in
    [engines.rs] and [playground.rs]): nothing is submitted for an empty
    vertex list; otherwise one call, [Err] when it returns -1. *)
Definition render_geometry (texture : option nat) (vertices : list SDL_Vertex)
    (indices : list Z) : list canvas_event * render_result :=
  match vertices with
  | [] => ([], RenderOk)
  | _ :: _ =>
      let vers_num := as_i32 (Z.of_nat (length vertices)) in
      let ind_num := as_i32 (Z.of_nat (length indices)) in
      let inds_ptr := if ind_num =? 0 then None else Some indices in
      let call := mkGeometryCall texture vertices vers_num inds_ptr ind_num in
      ([EvGeometry call], if sdl_render_geometry call =? -1 then RenderErr else RenderOk)
  end.

(** The [for tex_poly in body.polygons.iter()] loops with the [?] that
    returns at the first error. *)
Fixpoint render_polygons (ps : list SDLTexturedPolygon) : list canvas_event * render_result :=
  match ps with
  | [] => ([], RenderOk)
  | tp :: rest =>
      let '(ev, res) := render_geometry (tex tp) (vers (poly tp)) (inds (poly tp)) in
      match res with
      | RenderOk => let '(ev', res') := render_polygons rest in (ev ++ ev', res')
      | _ => (ev, res)
      end
  end.

Fixpoint render_bodies (bodies : list SDLBody) : list canvas_event * render_result :=
  match bodies with
  | [] => ([], RenderOk)
  | body :: rest =>
      let '(ev, res) := render_polygons (polygons body) in
      match res with
      | RenderOk => let '(ev', res') := render_bodies rest in (ev ++ ev', res')
      | _ => (ev, res)
      end
  end.

(** [SDLWindow::render(&mut self, drawables, texture)]: black clear, the
    bodies, [canvas.copy(..).unwrap()], [canvas.present()]. *)
Definition SDLWindow_render (drawables : list SDLBody) : list canvas_event * render_result :=
  let pre := [EvSetDrawColor (0, 0, 0); EvClear] in
  let '(ev, res) := render_bodies drawables in
  match res with
  | RenderOk =>
      if copy_ok then (pre ++ ev ++ [EvCopy; EvPresent], RenderOk)
      else (pre ++ ev ++ [EvCopy], RenderPanic)
  | _ => (pre ++ ev, res)
  end.

End Render.

(** ** [into_vertex] (of [playground.rs] and of [engines.rs])

    glyph_brush's [GlyphVertex]; [f32] values are of an abstract type
    [F]: [into_vertex] only copies them. *)
Record FRect (F : Type) := mkFRect { fr_min : F * F; fr_max : F * F }.
Arguments mkFRect {F} fr_min fr_max.
Arguments fr_min {F} _.
Arguments fr_max {F} _.

Record GlyphVertex (F : Type) := mkGlyphVertex {
  tex_coords : FRect F; pixel_coords : FRect F
}.
Arguments mkGlyphVertex {F} tex_coords pixel_coords.
Arguments tex_coords {F} _.
Arguments pixel_coords {F} _.

(** [sys::SDL_Vertex] with [f32] coordinates in [F]. *)
Record SDL_VertexF (F : Type) := mkVertexF {
  fposition : F * F; fcolor : Z * Z * Z * Z; ftex_coord : F * F
}.
Arguments mkVertexF {F} fposition fcolor ftex_coord.
Arguments fposition {F} _.
Arguments fcolor {F} _.
Arguments ftex_coord {F} _.

Record SDLPolygonF (F : Type) := mkPolygonF { fvers : list (SDL_VertexF F); finds : list Z }.
Arguments mkPolygonF {F} fvers finds.
Arguments fvers {F} _.
Arguments finds {F} _.

(** The body shared by both [into_vertex]; [alpha] is
    [alpha_for_all_vertices = 255] in [playground.rs] and
    [global_alpha = 128] in [engines.rs]. *)
Definition into_vertex_with {F} (alpha : Z) (vd : GlyphVertex F) : SDLPolygonF F :=
  let pc := pixel_coords vd in
  let tc := tex_coords vd in
  let white := (255, 255, 255, alpha) in
  let v1 := mkVertexF (fst (fr_min pc), snd (fr_min pc)) white (fst (fr_min tc), snd (fr_min tc)) in
  let v2 := mkVertexF (fst (fr_min pc), snd (fr_max pc)) white (fst (fr_min tc), snd (fr_max tc)) in
  let v3 := mkVertexF (fst (fr_max pc), snd (fr_max pc)) white (fst (fr_max tc), snd (fr_max tc)) in
  let v4 := mkVertexF (fst (fr_max pc), snd (fr_min pc)) white (fst (fr_max tc), snd (fr_min tc)) in
  mkPolygonF [v1; v2; v3; v4] [0; 1; 2; 2; 3; 0].

Definition into_vertex_playground {F} (vd : GlyphVertex F) : SDLPolygonF F :=
  into_vertex_with 255 vd.

Definition into_vertex_engines {F} (vd : GlyphVertex F) : SDLPolygonF F :=
  into_vertex_with 128 vd.

(** ** Index counting used in the [lazy_update] proofs

    [sel dims rect i]: whether the loop of [lazy_update] writes a byte of
    [tex_data] at index [i] (same [x] and [y] as the source). *)
Definition sel (dims : Z * Z) (rect : Rectangle) (i : Z) : bool :=
  let y := (i mod u32_modulus) / snd dims in
  let x := (i mod u32_modulus) mod fst dims in
  (snd (min rect) <=? y) && (y <? snd (max rect)) &&
  ((fst (min rect) <=? x) && (x <? fst (max rect))).

(** Number of selected indices in [i, i + L). *)
Fixpoint count_sel (dims : Z * Z) (rect : Rectangle) (i : Z) (L : nat) : nat :=
  match L with
  | O => O
  | S L' => Nat.add (if sel dims rect i then 1%nat else 0%nat) (count_sel dims rect (i + 1) L')
  end.

(** Number of [x] in [x0, x0 + L) with [lo <= x < hi]. *)
Fixpoint count_in (lo hi x0 : Z) (L : nat) : nat :=
  match L with
  | O => O
  | S L' => Nat.add (if (lo <=? x0) && (x0 <? hi) then 1%nat else 0%nat)
                    (count_in lo hi (x0 + 1) L')
  end.

Example lazy_update_ex1 :
  lazy_update (resize new_empty (2, 2)) (mkRect (0, 0) (2, 2)) [1; 2; 3; 4]
  = UOk (mkLazyTexture [1; 2; 3; 4] (2, 2)).
Proof. reflexivity. Qed.

Example lazy_update_ex2 :
  lazy_update (resize new_empty (2, 1)) (mkRect (0, 0) (2, 1)) [1; 2]
  = USizeMismatch (mkLazyTexture [1; 0] (2, 1)).
Proof. reflexivity. Qed.

Example resize_ex : resize (mkLazyTexture [7] (1, 1)) (2, 2) = mkLazyTexture [7; 0; 0; 0] (2, 2).
Proof. reflexivity. Qed.

(** ** Buffer length lemmas *)

Lemma vec_resize_length {A} (v : list A) (n : nat) (x : A) :
  length (vec_resize v n x) = n.
Proof.
  unfold vec_resize. destruct (Nat.leb_spec n (length v)).
  - rewrite length_firstn. lia.
  - rewrite length_app, repeat_length. lia.
Qed.

Lemma lazy_update_loop_length dims rect raw : forall i data,
  match lazy_update_loop dims rect i raw data with
  | LDone buf _ | LShort buf => length buf = length raw
  | LPanic => True
  end.
Proof.
  induction raw as [|x rest IH]; intros i data; simpl; [reflexivity|].
  destruct (snd dims =? 0); [exact I|].
  destruct (_ && _); [destruct (fst dims =? 0); [exact I|]; destruct (_ && _)|];
    try destruct data as [|d data']; try reflexivity;
    match goal with
    | |- context [cons_res _ (lazy_update_loop _ _ ?j rest ?dd)] =>
        specialize (IH j dd); destruct (lazy_update_loop _ _ j rest dd); simpl; auto
    end.
Qed.

Lemma lazy_update_keeps_length t rect tex_data :
  match lazy_update t rect tex_data with
  | UOk t' | USizeMismatch t' =>
      length (raw_data t') = length (raw_data t) /\ tex_dims t' = tex_dims t
  | UPanic => True
  end.
Proof.
  unfold lazy_update.
  pose proof (lazy_update_loop_length (tex_dims t) rect (raw_data t) 0 tex_data) as H.
  destruct (lazy_update_loop _ _ _ _ _) as [buf [|? ?]|buf|]; simpl; auto.
Qed.

Lemma resize_length t w h :
  length (raw_data (resize t (w, h))) = Z.to_nat ((w * h) mod u32_modulus).
Proof. apply vec_resize_length. Qed.

(** ** Claims on [LazyTexture] *)

(** C9 (code bug): [resize((65536, 65536))] computes [65536 * 65536] in
    [u32] before the [as usize] cast; the product wraps to 0 (a release
    build; a debug build panics on the overflow), so the buffer is empty
    instead of holding [w * h] = 2^32 bytes. *)
Lemma resize_u32_product_wraps :
  length (raw_data (resize new_empty (65536, 65536))) = 0%nat /\
  Z.of_nat (length (raw_data (resize new_empty (65536, 65536)))) <> 65536 * 65536.
Proof. vm_compute. split; [reflexivity| discriminate]. Qed.

(** C3 (code bug): after [resize((2, 1))] the buffer has [2 * 1] bytes,
    yet the full-rectangle update from (0,0) to (2,1) with 2 bytes returns
    [SizeMismatch]: the row index is [i / tex_dims.1] (the height) instead
    of [i / tex_dims.0], so index 1 is taken for row 1 and skipped. *)
Theorem resize_then_full_update_mismatch_2x1 :
  Z.of_nat (length (raw_data (resize new_empty (2, 1)))) = 2 * 1 /\
  lazy_update (resize new_empty (2, 1)) (mkRect (0, 0) (2, 1)) [1; 1]
  = USizeMismatch (mkLazyTexture [1; 0] (2, 1)).
Proof. split; reflexivity. Qed.

(** C4 (amended): [resize((w, h))] is [Vec::resize] to the wrapped [u32]
    product [n]: the first [min(old length, n)] bytes of the old buffer stay
    unchanged at the same indices and any new byte is 0; the old pixels
    are not moved to the new row width. *)
Theorem resize_keeps_prefix :
  forall t w h i,
    let n := Z.to_nat ((w * h) mod u32_modulus) in
    length (raw_data (resize t (w, h))) = n /\
    ((i < length (raw_data t))%nat -> (i < n)%nat ->
       nth_error (raw_data (resize t (w, h))) i = nth_error (raw_data t) i) /\
    ((length (raw_data t) <= i)%nat -> (i < n)%nat ->
       nth_error (raw_data (resize t (w, h))) i = Some 0).
Proof.
  intros t w h i n. split; [apply resize_length|].
  unfold resize, vec_resize; simpl; fold n.
  destruct (Nat.leb_spec n (length (raw_data t))) as [Hle|Hgt]; split; intros H1 H2.
  - rewrite nth_error_firstn. destruct (Nat.ltb_spec i n); [reflexivity| lia].
  - lia.
  - rewrite nth_error_app1 by lia. reflexivity.
  - rewrite nth_error_app2 by lia. apply nth_error_repeat. lia.
Qed.

Lemma resize_keeps_prefix_witness :
  nth_error (raw_data (resize (mkLazyTexture [7] (1, 1)) (2, 2))) 0 = Some 7.
Proof.
  apply (proj1 (proj2 (resize_keeps_prefix (mkLazyTexture [7] (1, 1)) 2 2 0))).
  - simpl. lia.
  - vm_compute. lia.
Defined.

(** C4 counterexample: resizing a 1x1 texture holding byte 7 to 2x2 keeps
    the 7 at index 0. *)
Lemma resize_preserves_old_byte :
  raw_data (resize (mkLazyTexture [7] (1, 1)) (2, 2)) = [7; 0; 0; 0] /\
  nth_error (raw_data (resize (mkLazyTexture [7] (1, 1)) (2, 2))) 0
  = nth_error (raw_data (mkLazyTexture [7] (1, 1))) 0.
Proof. split; reflexivity. Qed.

(** C10: [lazy_update] is not atomic on error: on a 2x2 texture, a full
    update with 1 byte instead of 4 returns [SizeMismatch] after writing
    that byte at index 0. *)
Theorem lazy_update_not_atomic :
  exists t rect tex_data t',
    Z.of_nat (length tex_data) < rect_width rect * rect_height rect /\
    lazy_update t rect tex_data = USizeMismatch t' /\
    raw_data t' <> raw_data t.
Proof.
  exists (resize new_empty (2, 2)), (mkRect (0, 0) (2, 2)), [5],
         (mkLazyTexture [5; 0; 0; 0] (2, 2)).
  split; [vm_compute; reflexivity|]. split; [reflexivity|]. simpl. discriminate.
Qed.

(** ** Claims on the build pipeline *)

(** C5: [build] of a [Container], a [Button] or a [TextField] is
    [todo!()]: it panics and returns neither a body nor an error. *)
Theorem unimplemented_builds_panic :
  forall (c : Container) (bt : Button) (tf : TextField) (parent : Component),
    sdl_build (CContainer c) parent = Todo /\
    sdl_build (CButton bt) parent = Todo /\
    sdl_build (CTextField tf) parent = Todo.
Proof. intros. repeat split. Qed.

(** C8: [SDLWindow::build] returns the icon body, followed by the
    [MainMenu] body exactly when the window has a menu. *)
Theorem SDLWindow_build_icon_then_menu :
  forall window, exists bodies,
    SDLWindow_build window = Built bodies /\
    hd_error bodies = Some (RUIIcon_build CRUIIcon) /\
    tl bodies = match window_menu window with
                | Some m => [MainMenu_build m CRUIIcon]
                | None => []
                end /\
    length bodies = match window_menu window with
                    | Some _ => 2%nat
                    | None => 1%nat
                    end.
Proof.
  intros window. unfold SDLWindow_build. simpl.
  destruct (window_menu window) as [m|]; simpl; eexists; repeat split.
Qed.

(** C6 (amended): a container whose children are a text field and a
    button (as in [main]) cannot be elaborated: [Container::build] and the
    two children's builds are [todo!()]. [SDLWindow::build] does not build
    the container at all, so [main]'s window gives the icon and
    [MainMenu] bodies only. *)
Theorem container_scenario_unimplemented :
  (forall w h (tf : TextField) (bt : Button) parent,
     sdl_build (CContainer (mkContainer w h [CTextField tf; CButton bt])) parent = Todo /\
     sdl_build (CTextField tf) parent = Todo /\
     sdl_build (CButton bt) parent = Todo) /\
  SDLWindow_build main_window
  = Built [RUIIcon_build CRUIIcon; MainMenu_build main_menu CRUIIcon].
Proof. split; [intros; repeat split | reflexivity]. Qed.

(** C6 counterexample: [main]'s container gives no body. *)
Lemma main_container_has_no_body :
  ~ (exists body, sdl_build (CContainer main_container) CRUIIcon = Built body) /\
  ~ (exists body, sdl_build (CTextField TextField_default) (CContainer main_container)
                  = Built body).
Proof. split; intros [body H]; discriminate H. Qed.

(** ** Materialisation *)

Lemma lor_disjoint_add lo hi k :
  0 <= k -> 0 <= lo < 2 ^ k -> Z.lor lo (hi * 2 ^ k) = lo + hi * 2 ^ k.
Proof.
  intros Hk Hlo.
  assert (Hand : Z.land lo (hi * 2 ^ k) = 0).
  { apply Z.bits_inj'. intros m Hm. rewrite Z.land_spec, Z.bits_0.
    destruct (Z.ltb_spec m k).
    - rewrite Z.mul_pow2_bits_low by lia. apply andb_false_r.
    - rewrite <- (Z.mod_small lo (2 ^ k)) by lia.
      rewrite Z.mod_pow2_bits_high by lia. reflexivity. }
  rewrite <- Z.lxor_lor by exact Hand.
  symmetry. apply Z.add_nocarry_lxor. exact Hand.
Qed.

Lemma to_u32_abgr8888_value c :
  0 <= r c < 256 -> 0 <= g c < 256 -> 0 <= b c < 256 -> 0 <= a c < 256 ->
  to_u32_abgr8888 c = r c + g c * 2 ^ 8 + b c * 2 ^ 16 + a c * 2 ^ 24.
Proof.
  intros Hr Hg Hb Ha. unfold to_u32_abgr8888.
  rewrite !Z.shiftl_mul_pow2 by lia. rewrite Z.mul_1_r.
  replace (Z.land (a c * 2 ^ 24) (255 * 2 ^ 24)) with (a c * 2 ^ 24).
  2:{ rewrite <- !Z.shiftl_mul_pow2 by lia. rewrite <- Z.shiftl_land.
      replace 255 with (Z.ones 8) by reflexivity.
      rewrite Z.land_ones, Z.mod_small by lia. reflexivity. }
  rewrite (lor_disjoint_add (r c) (g c) 8) by (simpl; lia).
  rewrite (lor_disjoint_add (r c + g c * 2 ^ 8) (b c) 16) by (simpl; lia).
  rewrite (lor_disjoint_add (r c + g c * 2 ^ 8 + b c * 2 ^ 16) (a c) 24) by (simpl; lia).
  reflexivity.
Qed.

Lemma bytes_of_sum x0 x1 x2 x3 :
  0 <= x0 < 256 -> 0 <= x1 < 256 -> 0 <= x2 < 256 -> 0 <= x3 < 256 ->
  (x0 + x1 * 256 + x2 * 65536 + x3 * 16777216) mod 256 = x0 /\
  ((x0 + x1 * 256 + x2 * 65536 + x3 * 16777216) / 256) mod 256 = x1 /\
  ((x0 + x1 * 256 + x2 * 65536 + x3 * 16777216) / 65536) mod 256 = x2 /\
  ((x0 + x1 * 256 + x2 * 65536 + x3 * 16777216) / 16777216) mod 256 = x3.
Proof.
  intros H0 H1 H2 H3.
  split; [|split; [|split]]; Z.to_euclidean_division_equations; lia.
Qed.

Lemma to_ne_bytes_value c :
  0 <= r c < 256 -> 0 <= g c < 256 -> 0 <= b c < 256 -> 0 <= a c < 256 ->
  to_ne_bytes (to_u32_abgr8888 c) = [r c; g c; b c; a c].
Proof.
  intros Hr Hg Hb Ha. rewrite to_u32_abgr8888_value by assumption.
  unfold to_ne_bytes. rewrite !Z.shiftr_div_pow2 by lia.
  replace 255 with (Z.ones 8) by reflexivity. rewrite !Z.land_ones by lia.
  change (2 ^ 8) with 256. change (2 ^ 16) with 65536. change (2 ^ 24) with 16777216.
  destruct (bytes_of_sum (r c) (g c) (b c) (a c) Hr Hg Hb Ha) as (E0 & E1 & E2 & E3).
  rewrite E0, E1, E2, E3. reflexivity.
Qed.

(** Every byte of [raw] is [alpha]: the materialised data is one
    [(r, g, b, alpha)] pixel per byte. *)
Lemma backup_update_texture_uniform raw color alpha :
  0 <= r color < 256 -> 0 <= g color < 256 -> 0 <= b color < 256 ->
  0 <= alpha < 256 -> Forall (fun x => x = alpha) raw ->
  backup_update_texture raw color
  = concat (repeat [r color; g color; b color; alpha] (length raw)).
Proof.
  intros Hr Hg Hb Ha Hall. induction Hall as [|x rest Hx Hrest IH]; [reflexivity|].
  subst x. cbn [backup_update_texture length repeat concat]. rewrite IH. f_equal. apply to_ne_bytes_value; simpl; assumption.
Qed.

(** C7: materialising a texture whose alpha buffer is all 0 gives pixels
    [(r, g, b, 0)] (fully transparent); with an all-0xFF buffer it gives
    pixels [(r, g, b, 255)]: fully opaque, in the foreground colour. *)
Theorem create_texture_uniform_alpha :
  forall t color,
    0 <= r color < 256 -> 0 <= g color < 256 -> 0 <= b color < 256 ->
    (Forall (fun x => x = 0) (raw_data t) ->
       img_pixels (create_texture t color)
       = concat (repeat [r color; g color; b color; 0] (length (raw_data t)))) /\
    (Forall (fun x => x = 255) (raw_data t) ->
       img_pixels (create_texture t color)
       = concat (repeat [r color; g color; b color; 255] (length (raw_data t)))).
Proof.
  intros t color Hr Hg Hb. split; intros Hall; simpl;
    apply backup_update_texture_uniform; auto; lia.
Qed.

Lemma create_texture_uniform_alpha_witness :
  img_pixels (create_texture (mkLazyTexture [255; 255] (2, 1)) (mkColor 0 255 0 0))
  = [0; 255; 0; 255; 0; 255; 0; 255].
Proof.
  apply (proj2 (create_texture_uniform_alpha (mkLazyTexture [255; 255] (2, 1))
                  (mkColor 0 255 0 0) ltac:(simpl; lia) ltac:(simpl; lia) ltac:(simpl; lia))).
  repeat constructor.
Defined.

Example create_texture_ex :
  img_pixels (create_texture (mkLazyTexture [0; 128] (2, 1)) (mkColor 1 2 3 0))
  = [1; 2; 3; 0; 1; 2; 3; 128].
Proof. reflexivity. Qed.

(** ** The retry loop of [build_text] *)

Lemma build_text_loop_never_breaks (Engine : Type)
    (process_queued : Engine -> Engine * list (Rectangle * list Z) * BrushResult)
    (resize_texture : Engine -> Z -> Z -> Engine)
    (create_texture_ok : Z -> Z -> bool)
    (sdl_update_ok : Rectangle -> list Z -> bool) :
  (forall e, exists e' suggested,
     process_queued e = (e', [], TextureTooSmall suggested) /\
     create_texture_ok (fst suggested) (snd suggested) = true) ->
  forall fuel e lt,
    build_text_loop Engine process_queued resize_texture create_texture_ok sdl_update_ok
      fuel e lt = LoopOutOfFuel.
Proof.
  intros Hstuck fuel. induction fuel as [|fuel IH]; intros e lt; [reflexivity|].
  simpl. destruct (Hstuck e) as (e' & suggested & Hp & Hc).
  rewrite Hp. simpl. rewrite Hc. apply IH.
Qed.

(** C2 (amended): the retry loop has no bound. It leaves only when
    [process_queued] returns [Ok] (or on a panic); a layout engine that
    keeps answering [TextureTooSmall] with a size the texture creator
    accepts keeps [build_text] retrying forever: no iteration budget is
    enough for it to return. *)
Theorem build_text_retry_unbounded :
  forall (Engine : Type) (queue : Engine -> string -> Z -> Engine)
    (process_queued : Engine -> Engine * list (Rectangle * list Z) * BrushResult)
    (resize_texture : Engine -> Z -> Z -> Engine)
    (create_texture_ok : Z -> Z -> bool)
    (sdl_update_ok : Rectangle -> list Z -> bool),
  (forall e, exists e' suggested,
     process_queued e = (e', [], TextureTooSmall suggested) /\
     create_texture_ok (fst suggested) (snd suggested) = true) ->
  forall fuel e self,
    build_text Engine queue process_queued resize_texture create_texture_ok sdl_update_ok
      fuel e self = TextOutOfFuel.
Proof.
  intros Engine queue process_queued resize_texture create_texture_ok sdl_update_ok
    Hstuck fuel e self.
  unfold build_text.
  rewrite (build_text_loop_never_breaks Engine process_queued resize_texture
             create_texture_ok sdl_update_ok Hstuck).
  reflexivity.
Qed.

Lemma build_text_retry_unbounded_witness :
  build_text unit stuck_queue stuck_process stuck_resize always_ok2 always_ok_update
    1000 tt (LazySDLText_new "Hey" 300 (mkColor 0 255 0 0)) = TextOutOfFuel.
Proof.
  apply (build_text_retry_unbounded unit stuck_queue stuck_process stuck_resize
           always_ok2 always_ok_update).
  intros e. exists tt, (256, 256). split; reflexivity.
Defined.

(** C2 counterexample: with an engine that always asks for a 256x256
    atlas, [build_text] returns for no iteration budget. *)
Lemma build_text_stuck_engine_never_returns :
  ~ (exists fuel, build_text unit stuck_queue stuck_process stuck_resize always_ok2
                    always_ok_update fuel tt (LazySDLText_new "Hey" 300 (mkColor 0 255 0 0))
                  <> TextOutOfFuel).
Proof.
  intros [fuel Hne]. apply Hne. unfold build_text.
  rewrite (build_text_loop_never_breaks unit stuck_process stuck_resize always_ok2
             always_ok_update).
  - reflexivity.
  - intros e. exists tt, (256, 256). split; reflexivity.
Qed.

(** ** Size checking of [lazy_update] *)

Lemma lazy_update_loop_consumes dims rect :
  0 < fst dims -> 0 < snd dims ->
  forall raw i data,
    match lazy_update_loop dims rect i raw data with
    | LDone _ rem =>
        (count_sel dims rect i (length raw) <= length data)%nat /\
        rem = skipn (count_sel dims rect i (length raw)) data
    | LShort _ => (length data < count_sel dims rect i (length raw))%nat
    | LPanic => False
    end.
Proof.
  intros Hw Hh raw. induction raw as [|a0 rest IH]; intros i data.
  - simpl. split; [lia | reflexivity].
  - cbn [lazy_update_loop length count_sel]. unfold sel.
    replace (snd dims =? 0) with false by (symmetry; apply Z.eqb_neq; lia).
    replace (fst dims =? 0) with false by (symmetry; apply Z.eqb_neq; lia).
    destruct ((snd (min rect) <=? (i mod u32_modulus) / snd dims) &&
              ((i mod u32_modulus) / snd dims <? snd (max rect))); simpl andb.
    + destruct ((fst (min rect) <=? (i mod u32_modulus) mod fst dims) &&
                ((i mod u32_modulus) mod fst dims <? fst (max rect))).
      * destruct data as [|d data']; simpl; [lia|].
        specialize (IH (i + 1) data').
        destruct (lazy_update_loop dims rect (i + 1) rest data'); simpl;
          [destruct IH; split; [lia | assumption] | lia | contradiction].
      * specialize (IH (i + 1) data).
        destruct (lazy_update_loop dims rect (i + 1) rest data); simpl; assumption.
    + specialize (IH (i + 1) data).
      destruct (lazy_update_loop dims rect (i + 1) rest data); simpl; assumption.
Qed.

Lemma lazy_update_mismatch_count t rect tex_data :
  0 < fst (tex_dims t) -> 0 < snd (tex_dims t) ->
  length tex_data <> count_sel (tex_dims t) rect 0 (length (raw_data t)) ->
  exists t', lazy_update t rect tex_data = USizeMismatch t'.
Proof.
  intros Hw Hh Hne. unfold lazy_update.
  pose proof (lazy_update_loop_consumes (tex_dims t) rect Hw Hh (raw_data t) 0 tex_data) as H.
  destruct (lazy_update_loop _ _ _ _ _) as [buf rem|buf|]; [|eexists; reflexivity|contradiction].
  destruct H as [Hle Hrem]. destruct rem as [|x rem'].
  - exfalso. apply Hne. apply (f_equal (@length Z)) in Hrem.
    rewrite length_skipn in Hrem. simpl in Hrem. lia.
  - eexists; reflexivity.
Qed.

Lemma count_sel_app dims rect (A B : nat) : forall i,
  count_sel dims rect i (A + B) = (count_sel dims rect i A + count_sel dims rect (i + Z.of_nat A) B)%nat.
Proof.
  induction A as [|A IH]; intros i.
  - simpl. rewrite Z.add_0_r. reflexivity.
  - cbn [count_sel Nat.add]. rewrite IH.
    replace (i + 1 + Z.of_nat A) with (i + Z.of_nat (S A)) by lia. lia.
Qed.

Lemma count_in_snoc lo hi (L : nat) : forall x0,
  count_in lo hi x0 (S L)
  = Nat.add (count_in lo hi x0 L)
      (if (lo <=? x0 + Z.of_nat L) && (x0 + Z.of_nat L <? hi) then 1%nat else 0%nat).
Proof.
  induction L as [|L IH]; intros x0.
  - simpl. rewrite Z.add_0_r. lia.
  - change (count_in lo hi x0 (S (S L)))
      with (Nat.add (if (lo <=? x0) && (x0 <? hi) then 1%nat else 0%nat)
              (count_in lo hi (x0 + 1) (S L))).
    rewrite IH. replace (x0 + 1 + Z.of_nat L) with (x0 + Z.of_nat (S L)) by lia.
    simpl count_in. lia.
Qed.

Lemma count_in_value lo hi (L : nat) : forall x0,
  lo <= hi ->
  count_in lo hi x0 L = Z.to_nat (Z.max 0 (Z.min hi (x0 + Z.of_nat L) - Z.max lo x0)).
Proof.
  induction L as [|L IH]; intros x0 Hlh.
  - simpl. lia.
  - simpl count_in. rewrite IH by exact Hlh.
    destruct (Z.leb_spec lo x0); destruct (Z.ltb_spec x0 hi); simpl; lia.
Qed.

Lemma square_div_mod n k x : 0 < n -> 0 <= x < n -> (n * k + x) / n = k /\ (n * k + x) mod n = x.
Proof.
  intros Hn Hx. split.
  - rewrite Z.mul_comm, Z.div_add_l by lia. rewrite Z.div_small by lia. lia.
  - rewrite Z.mul_comm, Z.add_comm, Z.mod_add by lia. apply Z.mod_small. lia.
Qed.

Lemma count_sel_row n rect k (L : nat) : forall x0,
  0 < n -> 0 <= k -> 0 <= x0 -> x0 + Z.of_nat L <= n ->
  n * k + x0 + Z.of_nat L <= u32_modulus ->
  count_sel (n, n) rect (n * k + x0) L
  = if (snd (min rect) <=? k) && (k <? snd (max rect))
    then count_in (fst (min rect)) (fst (max rect)) x0 L else 0%nat.
Proof.
  induction L as [|L IH]; intros x0 Hn Hk Hx0 HL Hmod.
  - simpl. destruct (_ && _); reflexivity.
  - cbn [count_sel count_in]. unfold sel. cbn [fst snd].
    rewrite (Z.mod_small (n * k + x0)) by lia.
    destruct (square_div_mod n k x0 Hn ltac:(lia)) as [Hd Hm]. rewrite Hd, Hm.
    replace (n * k + x0 + 1) with (n * k + (x0 + 1)) by lia.
    rewrite IH by lia.
    destruct ((snd (min rect) <=? k) && (k <? snd (max rect))); simpl; lia.
Qed.

Lemma count_sel_rows n rect (K : nat) :
  0 < n -> n * Z.of_nat K <= u32_modulus ->
  count_sel (n, n) rect 0 (Z.to_nat n * K)
  = (count_in (snd (min rect)) (snd (max rect)) 0 K
     * count_in (fst (min rect)) (fst (max rect)) 0 (Z.to_nat n))%nat.
Proof.
  intros Hn. induction K as [|K IH]; intros HK.
  - rewrite Nat.mul_0_r. reflexivity.
  - rewrite Nat.mul_succ_r, count_sel_app, IH by lia.
    rewrite count_in_snoc.
    replace (0 + Z.of_nat (Z.to_nat n * K)) with (n * Z.of_nat K + 0) by lia.
    rewrite count_sel_row by lia. rewrite Z.add_0_l.
    destruct ((snd (min rect) <=? Z.of_nat K) && (Z.of_nat K <? snd (max rect))); lia.
Qed.

Lemma count_sel_square n rect :
  0 <= n -> n * n <= u32_modulus ->
  0 <= fst (min rect) <= fst (max rect) -> fst (max rect) <= n ->
  0 <= snd (min rect) <= snd (max rect) -> snd (max rect) <= n ->
  Z.of_nat (count_sel (n, n) rect 0 (Z.to_nat (n * n))) = rect_width rect * rect_height rect.
Proof.
  intros Hn Hnn Hx Hxn Hy Hyn. unfold rect_width, rect_height.
  destruct (Z.eq_dec n 0) as [->|Hn0].
  - replace (fst (max rect) - fst (min rect)) with 0 by lia. reflexivity.
  - rewrite Z2Nat.inj_mul by lia.
    rewrite count_sel_rows by lia.
    rewrite Nat2Z.inj_mul, !count_in_value by lia. rewrite !Z2Nat.id by lia.
    replace (Z.max 0 (Z.min (snd (max rect)) (0 + n) - Z.max (snd (min rect)) 0))
      with (snd (max rect) - snd (min rect)) by lia.
    replace (Z.max 0 (Z.min (fst (max rect)) (0 + n) - Z.max (fst (min rect)) 0))
      with (fst (max rect) - fst (min rect)) by lia.
    ring.
Qed.

(** C1 (amended): [lazy_update] never changes the buffer length (it only
    assigns through [iter_mut], so it writes nowhere outside [raw_data]).
    On a square [n] x [n] texture whose buffer holds [n * n] bytes, a
    rectangle that lies inside the texture and a byte count different
    from its pixel count give [SizeMismatch]. Rectangles reaching outside
    the texture are not checked (see the counterexample). *)
Theorem lazy_update_size_mismatch :
  (forall t rect tex_data,
     match lazy_update t rect tex_data with
     | UOk t' | USizeMismatch t' => length (raw_data t') = length (raw_data t)
     | UPanic => True
     end) /\
  (forall t rect tex_data n,
     tex_dims t = (n, n) -> 0 <= n -> n * n < u32_modulus ->
     Z.of_nat (length (raw_data t)) = n * n ->
     0 <= fst (min rect) <= fst (max rect) -> fst (max rect) <= n ->
     0 <= snd (min rect) <= snd (max rect) -> snd (max rect) <= n ->
     Z.of_nat (length tex_data) <> rect_width rect * rect_height rect ->
     exists t', lazy_update t rect tex_data = USizeMismatch t').
Proof.
  split.
  - intros t rect tex_data. pose proof (lazy_update_keeps_length t rect tex_data) as H.
    destruct (lazy_update t rect tex_data); tauto.
  - intros t rect tex_data n Hdims Hn Hnn Hlen Hx Hxn Hy Hyn Hne.
    destruct (Z.eq_dec n 0) as [->|Hn0].
    + destruct (raw_data t) eqn:Hraw; [|simpl in Hlen; lia].
      unfold lazy_update. rewrite Hraw. simpl.
      destruct tex_data as [|d rest]; [|eexists; reflexivity].
      exfalso. apply Hne. unfold rect_width, rect_height.
      replace (fst (max rect) - fst (min rect)) with 0 by lia. reflexivity.
    + apply lazy_update_mismatch_count; rewrite Hdims; simpl; try lia.
      intros Heq. apply Hne.
      rewrite Heq. replace (length (raw_data t)) with (Z.to_nat (n * n)) by lia.
      apply count_sel_square; lia.
Qed.

Lemma lazy_update_size_mismatch_witness :
  exists t', lazy_update (resize new_empty (2, 2)) (mkRect (0, 0) (2, 2)) [1; 2; 3]
             = USizeMismatch t'.
Proof.
  apply (proj2 lazy_update_size_mismatch (resize new_empty (2, 2)) (mkRect (0, 0) (2, 2))
           [1; 2; 3] 2); vm_compute; try reflexivity; try discriminate;
    split; discriminate.
Defined.

(** C1 counterexample: on the 1x1 texture [resize((1, 1))] makes, an
    update of the 2x2 rectangle from (0,0) to (2,2) (4 pixels) with a
    single byte returns [Ok]. *)
Lemma lazy_update_oversized_rect_ok :
  Z.of_nat (length [9]) <> rect_width (mkRect (0, 0) (2, 2)) * rect_height (mkRect (0, 0) (2, 2)) /\
  lazy_update (resize new_empty (1, 1)) (mkRect (0, 0) (2, 2)) [9]
  = UOk (mkLazyTexture [9] (1, 1)).
Proof. split; [vm_compute; discriminate | reflexivity]. Qed.

(** * Further properties of the code *)

(** ** [lazy_update]: panics, splicing, untouched pixels *)

Lemma lazy_update_loop_no_panic dims rect raw : forall i data,
  0 < fst dims -> 0 < snd dims -> lazy_update_loop dims rect i raw data <> LPanic.
Proof.
  intros i data Hw Hh.
  pose proof (lazy_update_loop_consumes dims rect Hw Hh raw i data) as H.
  destruct (lazy_update_loop dims rect i raw data); [discriminate|discriminate|contradiction].
Qed.

(** [lazy_update] panics (division by zero) only on a non-empty buffer
    with a zero dimension: it never panics on an empty buffer or when both
    dimensions are positive, and always panics on a non-empty buffer of
    height 0. *)
Theorem lazy_update_panics_only_on_zero_dims :
  forall t rect tex_data,
    ((raw_data t = [] \/ (0 < fst (tex_dims t) /\ 0 < snd (tex_dims t))) ->
       lazy_update t rect tex_data <> UPanic) /\
    (raw_data t <> [] -> snd (tex_dims t) = 0 -> lazy_update t rect tex_data = UPanic).
Proof.
  intros t rect tex_data. split.
  - intros [Hnil | [Hw Hh]]; unfold lazy_update.
    + rewrite Hnil. simpl. destruct tex_data; discriminate.
    + pose proof (lazy_update_loop_no_panic (tex_dims t) rect (raw_data t) 0 tex_data Hw Hh).
      destruct (lazy_update_loop _ _ _ _ _) as [? [|? ?]|?|]; try discriminate; contradiction.
  - intros Hne Hh. unfold lazy_update.
    destruct (raw_data t) as [|a0 rest]; [contradiction|]. simpl. rewrite Hh. reflexivity.
Qed.

Lemma lazy_update_panics_only_on_zero_dims_witness :
  lazy_update (mkLazyTexture [0] (1, 0)) (mkRect (0, 0) (1, 1)) [] = UPanic.
Proof.
  apply (proj2 (lazy_update_panics_only_on_zero_dims (mkLazyTexture [0] (1, 0))
                  (mkRect (0, 0) (1, 1)) [])); [discriminate | reflexivity].
Defined.

(** Where the loop of [lazy_update] writes: at a selected index the next
    unread byte of [tex_data], elsewhere the old byte. *)
Lemma lazy_update_loop_nth dims rect raw : forall i data buf rem,
  lazy_update_loop dims rect i raw data = LDone buf rem ->
  forall k, (k < length raw)%nat ->
    nth k buf 0 = if sel dims rect (i + Z.of_nat k)
                  then nth (count_sel dims rect i k) data 0 else nth k raw 0.
Proof.
  induction raw as [|a0 rest IH]; intros i data buf rem Hloop k Hk; [simpl in Hk; lia|].
  simpl in Hloop. unfold sel in *.
  destruct (snd dims =? 0); [discriminate|].
  destruct ((snd (min rect) <=? (i mod u32_modulus) / snd dims) &&
            ((i mod u32_modulus) / snd dims <? snd (max rect))) eqn:Hy.
  - destruct (fst dims =? 0); [discriminate|].
    destruct ((fst (min rect) <=? (i mod u32_modulus) mod fst dims) &&
              ((i mod u32_modulus) mod fst dims <? fst (max rect))) eqn:Hx.
    + destruct data as [|d data']; [discriminate|].
      destruct (lazy_update_loop dims rect (i + 1) rest data') as [buf' rem'| |] eqn:Hl;
        simpl in Hloop; inversion Hloop; subst.
      destruct k as [|k].
      * rewrite Z.add_0_r, Hy, Hx. reflexivity.
      * simpl in Hk. cbn [nth count_sel]. unfold sel at 1. rewrite Hy, Hx. simpl andb.
        rewrite (IH (i + 1) data' buf' rem Hl k) by lia.
        replace (i + 1 + Z.of_nat k) with (i + Z.of_nat (S k)) by lia.
        reflexivity.
    + destruct (lazy_update_loop dims rect (i + 1) rest data) as [buf' rem'| |] eqn:Hl;
        simpl in Hloop; inversion Hloop; subst.
      destruct k as [|k].
      * rewrite Z.add_0_r, Hy, Hx. reflexivity.
      * simpl in Hk. cbn [nth count_sel]. unfold sel at 1. rewrite Hy, Hx. simpl andb.
        rewrite (IH (i + 1) data buf' rem Hl k) by lia.
        replace (i + 1 + Z.of_nat k) with (i + Z.of_nat (S k)) by lia.
        reflexivity.
  - destruct (lazy_update_loop dims rect (i + 1) rest data) as [buf' rem'| |] eqn:Hl;
      simpl in Hloop; inversion Hloop; subst.
    destruct k as [|k].
    + rewrite Z.add_0_r, Hy. reflexivity.
    + simpl in Hk. cbn [nth count_sel]. unfold sel at 1. rewrite Hy. simpl andb.
      rewrite (IH (i + 1) data buf' rem Hl k) by lia.
      replace (i + 1 + Z.of_nat k) with (i + Z.of_nat (S k)) by lia.
      reflexivity.
Qed.

Lemma lazy_update_loop_unselected dims rect raw : forall i data,
  match lazy_update_loop dims rect i raw data with
  | LDone buf _ | LShort buf =>
      forall k, (k < length raw)%nat -> sel dims rect (i + Z.of_nat k) = false ->
      nth k buf 0 = nth k raw 0
  | LPanic => True
  end.
Proof.
  induction raw as [|a0 rest IH]; intros i data; [simpl; intros k Hk; lia|].
  cbn [lazy_update_loop]. unfold sel.
  destruct (snd dims =? 0); [exact I|].
  destruct ((snd (min rect) <=? (i mod u32_modulus) / snd dims) &&
            ((i mod u32_modulus) / snd dims <? snd (max rect))) eqn:Hy.
  - destruct (fst dims =? 0); [exact I|].
    destruct ((fst (min rect) <=? (i mod u32_modulus) mod fst dims) &&
              ((i mod u32_modulus) mod fst dims <? fst (max rect))) eqn:Hx.
    + destruct data as [|d data']; [intros; reflexivity|].
      specialize (IH (i + 1) data').
      destruct (lazy_update_loop dims rect (i + 1) rest data'); simpl; auto;
        intros [|k] Hk Hsel;
        [rewrite Z.add_0_r, Hy, Hx in Hsel; discriminate
        | apply IH; [simpl in Hk; lia|];
          replace (i + 1 + Z.of_nat k) with (i + Z.of_nat (S k)) by lia; exact Hsel
        | rewrite Z.add_0_r, Hy, Hx in Hsel; discriminate
        | apply IH; [simpl in Hk; lia|];
          replace (i + 1 + Z.of_nat k) with (i + Z.of_nat (S k)) by lia; exact Hsel].
    + specialize (IH (i + 1) data).
      destruct (lazy_update_loop dims rect (i + 1) rest data); simpl; auto;
        intros [|k] Hk Hsel; auto;
        apply IH; try (simpl in Hk; lia);
        replace (i + 1 + Z.of_nat k) with (i + Z.of_nat (S k)) by lia; exact Hsel.
  - specialize (IH (i + 1) data).
    destruct (lazy_update_loop dims rect (i + 1) rest data); simpl; auto;
      intros [|k] Hk Hsel; auto;
      apply IH; try (simpl in Hk; lia);
      replace (i + 1 + Z.of_nat k) with (i + Z.of_nat (S k)) by lia; exact Hsel.
Qed.

Lemma sel_square n rect x y :
  0 < n -> 0 <= x < n -> 0 <= y -> n * y + x < u32_modulus ->
  sel (n, n) rect (n * y + x)
  = ((snd (min rect) <=? y) && (y <? snd (max rect))) &&
    ((fst (min rect) <=? x) && (x <? fst (max rect))).
Proof.
  intros Hn Hx Hy Hlt. unfold sel. cbn [fst snd].
  rewrite (Z.mod_small (n * y + x)) by lia.
  destruct (square_div_mod n y x Hn Hx) as [Hd Hm]. rewrite Hd, Hm. reflexivity.
Qed.

Lemma count_sel_before_pixel n rect x y :
  0 < n -> n * n <= u32_modulus ->
  0 <= fst (min rect) <= x -> x < fst (max rect) -> fst (max rect) <= n ->
  0 <= snd (min rect) <= y -> y < snd (max rect) -> snd (max rect) <= n ->
  Z.of_nat (count_sel (n, n) rect 0 (Z.to_nat (n * y + x)))
  = (y - snd (min rect)) * rect_width rect + (x - fst (min rect)).
Proof.
  intros Hn Hnn Hx1 Hx2 Hxn Hy1 Hy2 Hyn.
  rewrite Z2Nat.inj_add, Z2Nat.inj_mul by nia.
  rewrite count_sel_app, count_sel_rows by nia.
  replace (0 + Z.of_nat (Z.to_nat n * Z.to_nat y)) with (n * y + 0)
    by (rewrite Nat2Z.inj_mul, !Z2Nat.id by lia; ring).
  rewrite count_sel_row by nia.
  replace ((snd (min rect) <=? y) && (y <? snd (max rect))) with true
    by (symmetry; apply andb_true_iff; split; [apply Z.leb_le | apply Z.ltb_lt]; lia).
  rewrite !count_in_value by lia.
  rewrite Nat2Z.inj_add, Nat2Z.inj_mul, !Z2Nat.id by lia.
  unfold rect_width.
  replace (Z.max 0 (Z.min (snd (max rect)) (0 + y) - Z.max (snd (min rect)) 0))
    with (y - snd (min rect)) by lia.
  replace (Z.max 0 (Z.min (fst (max rect)) (0 + n) - Z.max (fst (min rect)) 0))
    with (fst (max rect) - fst (min rect)) by lia.
  replace (Z.max 0 (Z.min (fst (max rect)) (0 + x) - Z.max (fst (min rect)) 0))
    with (x - fst (min rect)) by lia.
  reflexivity.
Qed.

(** On a square [n] x [n] texture holding [n * n] bytes, an update of a
    rectangle inside the texture with exactly [width * height] bytes
    returns [Ok]; pixel (x, y) inside the rectangle then holds byte
    [(y - min.y) * width + (x - min.x)] of [tex_data] (row-major order),
    and every pixel outside keeps its old byte. *)
Theorem lazy_update_square_splice :
  forall t rect tex_data n,
    tex_dims t = (n, n) -> 0 <= n -> n * n < u32_modulus ->
    Z.of_nat (length (raw_data t)) = n * n ->
    0 <= fst (min rect) <= fst (max rect) -> fst (max rect) <= n ->
    0 <= snd (min rect) <= snd (max rect) -> snd (max rect) <= n ->
    Z.of_nat (length tex_data) = rect_width rect * rect_height rect ->
    exists t', lazy_update t rect tex_data = UOk t' /\ tex_dims t' = (n, n) /\
      forall x y, 0 <= x < n -> 0 <= y < n ->
        nth (Z.to_nat (n * y + x)) (raw_data t') 0 =
        if ((fst (min rect) <=? x) && (x <? fst (max rect))) &&
           ((snd (min rect) <=? y) && (y <? snd (max rect)))
        then nth (Z.to_nat ((y - snd (min rect)) * rect_width rect + (x - fst (min rect))))
               tex_data 0
        else nth (Z.to_nat (n * y + x)) (raw_data t) 0.
Proof.
  intros t rect tex_data n Hdims Hn Hnn Hlen Hx Hxn Hy Hyn Hcount.
  destruct (Z.eq_dec n 0) as [->|Hn0].
  - destruct (raw_data t) eqn:Hraw; [|simpl in Hlen; lia].
    assert (tex_data = []) as ->.
    { destruct tex_data; [reflexivity|]. exfalso. simpl in Hcount.
      unfold rect_width, rect_height in Hcount.
      replace (fst (max rect) - fst (min rect)) with 0 in Hcount by lia. lia. }
    unfold lazy_update. rewrite Hraw. simpl. eexists. split; [reflexivity|].
    split; [exact Hdims|]. intros x y Hx0. lia.
  - assert (Hcnt : count_sel (tex_dims t) rect 0 (length (raw_data t)) = length tex_data).
    { rewrite Hdims. replace (length (raw_data t)) with (Z.to_nat (n * n)) by lia.
      apply Nat2Z.inj. rewrite Hcount. apply count_sel_square; lia. }
    pose proof (lazy_update_loop_consumes (tex_dims t) rect ltac:(rewrite Hdims; simpl; lia)
                  ltac:(rewrite Hdims; simpl; lia) (raw_data t) 0 tex_data) as Hc.
    pose proof (lazy_update_loop_nth (tex_dims t) rect (raw_data t) 0 tex_data) as Hnth.
    unfold lazy_update.
    destruct (lazy_update_loop (tex_dims t) rect 0 (raw_data t) tex_data) as [buf rem|buf|];
      [|lia|contradiction].
    destruct Hc as [_ Hrem]. rewrite Hcnt, skipn_all in Hrem. subst rem.
    eexists. split; [reflexivity|]. split; [exact Hdims|].
    intros x y Hx0 Hy0. simpl raw_data.
    rewrite (Hnth buf [] eq_refl) by nia.
    rewrite Hdims, Z2Nat.id by nia. rewrite Z.add_0_l.
    rewrite sel_square by nia.
    rewrite (andb_comm ((snd (min rect) <=? y) && (y <? snd (max rect)))).
    destruct ((fst (min rect) <=? x) && (x <? fst (max rect))) eqn:Ex;
      destruct ((snd (min rect) <=? y) && (y <? snd (max rect))) eqn:Ey; simpl; try reflexivity.
    apply andb_true_iff in Ex as [Ex1 Ex2]. apply andb_true_iff in Ey as [Ey1 Ey2].
    apply Z.leb_le in Ex1. apply Z.ltb_lt in Ex2. apply Z.leb_le in Ey1. apply Z.ltb_lt in Ey2.
    f_equal. apply Nat2Z.inj. rewrite Z2Nat.id by (unfold rect_width; nia).
    apply count_sel_before_pixel; lia.
Qed.

Lemma lazy_update_square_splice_witness :
  exists t', lazy_update (mkLazyTexture [0; 0; 0; 0; 0; 0; 0; 0; 0] (3, 3))
               (mkRect (1, 1) (3, 2)) [7; 8] = UOk t' /\ tex_dims t' = (3, 3) /\
    forall x y, 0 <= x < 3 -> 0 <= y < 3 ->
      nth (Z.to_nat (3 * y + x)) (raw_data t') 0 =
      if ((1 <=? x) && (x <? 3)) && ((1 <=? y) && (y <? 2))
      then nth (Z.to_nat ((y - 1) * 2 + (x - 1))) [7; 8] 0
      else nth (Z.to_nat (3 * y + x)) [0; 0; 0; 0; 0; 0; 0; 0; 0] 0.
Proof.
  apply (lazy_update_square_splice (mkLazyTexture [0; 0; 0; 0; 0; 0; 0; 0; 0] (3, 3))
           (mkRect (1, 1) (3, 2)) [7; 8] 3); vm_compute; try reflexivity;
    try (split; discriminate); discriminate.
Defined.

(** On a square [n] x [n] texture holding [n * n] bytes, [lazy_update]
    never changes a pixel outside the rectangle, whatever the byte count
    (also when it returns [SizeMismatch]). *)
Theorem lazy_update_square_outside_untouched :
  forall t rect tex_data n,
    tex_dims t = (n, n) -> 0 <= n -> n * n < u32_modulus ->
    Z.of_nat (length (raw_data t)) = n * n ->
    match lazy_update t rect tex_data with
    | UOk t' | USizeMismatch t' =>
        forall x y, 0 <= x < n -> 0 <= y < n ->
        negb (((fst (min rect) <=? x) && (x <? fst (max rect))) &&
              ((snd (min rect) <=? y) && (y <? snd (max rect)))) = true ->
        nth (Z.to_nat (n * y + x)) (raw_data t') 0 = nth (Z.to_nat (n * y + x)) (raw_data t) 0
    | UPanic => True
    end.
Proof.
  intros t rect tex_data n Hdims Hn Hnn Hlen.
  pose proof (lazy_update_loop_unselected (tex_dims t) rect (raw_data t) 0 tex_data) as H.
  unfold lazy_update.
  destruct (lazy_update_loop (tex_dims t) rect 0 (raw_data t) tex_data)
    as [buf [|? ?]|buf|]; try exact I;
    intros x y Hx Hy Hout; simpl raw_data; apply H; try nia;
    rewrite Z2Nat.id, Z.add_0_l, Hdims by nia; rewrite sel_square by nia;
    rewrite andb_comm; apply negb_true_iff; exact Hout.
Qed.

Lemma lazy_update_square_outside_untouched_witness :
  match lazy_update (mkLazyTexture [1; 2; 3; 4] (2, 2)) (mkRect (0, 0) (1, 1)) [9; 9] with
  | UOk t' | USizeMismatch t' =>
      forall x y, 0 <= x < 2 -> 0 <= y < 2 ->
      negb (((0 <=? x) && (x <? 1)) && ((0 <=? y) && (y <? 1))) = true ->
      nth (Z.to_nat (2 * y + x)) (raw_data t') 0 = nth (Z.to_nat (2 * y + x)) [1; 2; 3; 4] 0
  | UPanic => True
  end.
Proof.
  exact (lazy_update_square_outside_untouched (mkLazyTexture [1; 2; 3; 4] (2, 2))
           (mkRect (0, 0) (1, 1)) [9; 9] 2 eq_refl ltac:(lia) ltac:(vm_compute; reflexivity)
           eq_refl).
Defined.


(** ** Texture materialisation *)

(** [backup_update_texture] turns each byte of the buffer, in order, into
    one RGBA32 pixel [(color.r, color.g, color.b, byte)]: the byte is the
    pixel's alpha and the colour's own alpha is never used. *)
Theorem backup_update_texture_pixels :
  forall raw color,
    0 <= r color < 256 -> 0 <= g color < 256 -> 0 <= b color < 256 ->
    Forall (fun al => 0 <= al < 256) raw ->
    backup_update_texture raw color
    = concat (map (fun al => [r color; g color; b color; al]) raw).
Proof.
  intros raw color Hr Hg Hb Hall.
  induction Hall as [|al rest Hal Hrest IH]; [reflexivity|].
  cbn [backup_update_texture map concat]. rewrite IH. f_equal.
  apply to_ne_bytes_value; simpl; assumption.
Qed.

Lemma backup_update_texture_pixels_witness :
  backup_update_texture [0; 200] (mkColor 1 2 3 77)
  = concat (map (fun al => [1; 2; 3; al]) [0; 200]).
Proof.
  apply (backup_update_texture_pixels [0; 200] (mkColor 1 2 3 77));
    simpl; try lia.
  repeat constructor; lia.
Defined.

(** ** The pixel callback and [build_text] *)

Lemma lazy_update_no_panic_pos t rect tex_data :
  0 < fst (tex_dims t) -> 0 < snd (tex_dims t) -> lazy_update t rect tex_data <> UPanic.
Proof.
  intros Hw Hh. unfold lazy_update.
  pose proof (lazy_update_loop_no_panic (tex_dims t) rect (raw_data t) 0 tex_data Hw Hh).
  destruct (lazy_update_loop _ _ _ _ _) as [? [|? ?]|?|]; try discriminate; contradiction.
Qed.

(** The pixel callback of [build_text] discards the [Result] of
    [lazy_update]: with positive texture dimensions and SDL accepting every
    update, a list of updates of any sizes (too short or too long for their
    rectangle) is applied without panic, and the buffer keeps its length
    and dimensions. *)
Theorem apply_updates_ignores_mismatch :
  forall (sdl_update_ok : Rectangle -> list Z -> bool) lt ups,
    0 < fst (tex_dims lt) -> 0 < snd (tex_dims lt) ->
    Forall (fun u => sdl_update_ok (fst u) (snd u) = true) ups ->
    exists lt', apply_updates sdl_update_ok lt ups = Some lt' /\
      length (raw_data lt') = length (raw_data lt) /\ tex_dims lt' = tex_dims lt.
Proof.
  intros sdl_update_ok lt ups Hw Hh Hok. revert lt Hw Hh.
  induction Hok as [|[rect data] rest Hu Hrest IH]; intros lt Hw Hh.
  - exists lt. auto.
  - simpl in Hu. cbn [apply_updates].
    pose proof (lazy_update_keeps_length lt rect data) as Hk.
    pose proof (lazy_update_no_panic_pos lt rect data Hw Hh) as Hp.
    destruct (lazy_update lt rect data) as [lt1|lt1|]; [| |contradiction];
      rewrite Hu; destruct Hk as [Hl Hd];
      (destruct (IH lt1) as (lt' & E & Hl' & Hd'); [rewrite Hd; assumption|rewrite Hd; assumption|]);
      exists lt'; rewrite Hl', Hd'; auto.
Qed.

Lemma apply_updates_ignores_mismatch_witness :
  exists lt', apply_updates always_ok_update (mkLazyTexture [0; 0] (2, 1))
                [(mkRect (0, 0) (2, 1), [5]); (mkRect (0, 0) (1, 1), [6; 7; 8])] = Some lt' /\
    length (raw_data lt') = length [0; 0] /\ tex_dims lt' = (2, 1).
Proof.
  apply (apply_updates_ignores_mismatch always_ok_update (mkLazyTexture [0; 0] (2, 1))
           [(mkRect (0, 0) (2, 1), [5]); (mkRect (0, 0) (1, 1), [6; 7; 8])]);
    simpl; try lia.
  repeat constructor.
Defined.

(** Sized: the buffer holds as many bytes as the [u32] product of the
    dimensions, as [resize] leaves it. *)
Lemma apply_updates_sized (sdl_update_ok : Rectangle -> list Z -> bool) : forall ups lt lt',
  apply_updates sdl_update_ok lt ups = Some lt' ->
  length (raw_data lt) = Z.to_nat ((fst (tex_dims lt) * snd (tex_dims lt)) mod u32_modulus) ->
  length (raw_data lt') = Z.to_nat ((fst (tex_dims lt') * snd (tex_dims lt')) mod u32_modulus).
Proof.
  induction ups as [|[rect data] rest IH]; intros lt lt' E Hs.
  - injection E as <-. exact Hs.
  - cbn [apply_updates] in E.
    pose proof (lazy_update_keeps_length lt rect data) as Hk.
    destruct (lazy_update lt rect data) as [lt1|lt1|]; [| |discriminate];
      destruct (sdl_update_ok rect data); try discriminate;
      destruct Hk as [Hl Hd]; apply (IH lt1 lt' E); rewrite Hl, Hd; exact Hs.
Qed.

Lemma build_text_loop_sized (Engine : Type)
    (process_queued : Engine -> Engine * list (Rectangle * list Z) * BrushResult)
    (resize_texture : Engine -> Z -> Z -> Engine)
    (create_texture_ok : Z -> Z -> bool)
    (sdl_update_ok : Rectangle -> list Z -> bool) :
  forall fuel e lt e' lt' act,
  build_text_loop Engine process_queued resize_texture create_texture_ok sdl_update_ok
    fuel e lt = LoopBreak e' lt' act ->
  length (raw_data lt) = Z.to_nat ((fst (tex_dims lt) * snd (tex_dims lt)) mod u32_modulus) ->
  length (raw_data lt') = Z.to_nat ((fst (tex_dims lt') * snd (tex_dims lt')) mod u32_modulus).
Proof.
  induction fuel as [|fuel IH]; intros e lt e' lt' act E Hs; [discriminate|].
  cbn [build_text_loop] in E.
  destruct (process_queued e) as [[e1 ups] res].
  destruct (apply_updates sdl_update_ok lt ups) as [lt1|] eqn:Ea; [|discriminate].
  pose proof (apply_updates_sized sdl_update_ok ups lt lt1 Ea Hs) as Hs1.
  destruct res as [act1|[w h]].
  - injection E as _ <- _. exact Hs1.
  - destruct (create_texture_ok (fst (w, h)) (snd (w, h))); [|discriminate].
    apply (IH _ _ _ _ _ E). apply resize_length.
Qed.

(** When [build_text] returns, it returns the cache [self.built] it leaves
    behind, it has not changed the text, size or colour, and a lazy texture
    whose buffer held the [u32] product of its dimensions in bytes still
    does (through any number of resizes and updates). *)
Theorem build_text_result_is_cache :
  forall (Engine : Type) (queue : Engine -> string -> Z -> Engine)
    (process_queued : Engine -> Engine * list (Rectangle * list Z) * BrushResult)
    (resize_texture : Engine -> Z -> Z -> Engine)
    (create_texture_ok : Z -> Z -> bool)
    (sdl_update_ok : Rectangle -> list Z -> bool) fuel e self e' self' res,
    build_text Engine queue process_queued resize_texture create_texture_ok sdl_update_ok
      fuel e self = TextBuilt e' self' res ->
    res = built self' /\ ltext self' = ltext self /\ size self' = size self /\
    color self' = color self /\
    (length (raw_data (lazy_tex self))
       = Z.to_nat ((fst (tex_dims (lazy_tex self)) * snd (tex_dims (lazy_tex self))) mod u32_modulus) ->
     length (raw_data (lazy_tex self'))
       = Z.to_nat ((fst (tex_dims (lazy_tex self')) * snd (tex_dims (lazy_tex self'))) mod u32_modulus)).
Proof.
  intros Engine queue process_queued resize_texture create_texture_ok sdl_update_ok
    fuel e self e' self' res E.
  unfold build_text in E.
  destruct (build_text_loop _ _ _ _ _ fuel _ (lazy_tex self)) as [e1 lt act| |] eqn:L;
    try discriminate.
  injection E as _ <- <-. cbn [built ltext size color lazy_tex].
  repeat split; try reflexivity.
  apply (build_text_loop_sized _ _ _ _ _ _ _ _ _ _ _ L).
Qed.

Lemma build_text_result_is_cache_witness :
  exists e' self' res,
    build_text nat (fun n _ _ => n)
      (fun n => match n with
                | O => (1%nat, [], TextureTooSmall (2, 2))
                | S _ => (n, [(mkRect (0, 0) (2, 2), [9; 9; 9; 9])], BrushOk (Draw []))
                end)
      (fun n _ _ => n) always_ok2 always_ok_update
      3 O (LazySDLText_new "Hey" 300 (mkColor 0 255 0 0)) = TextBuilt e' self' res /\
    res = built self' /\
    length (raw_data (lazy_tex self'))
      = Z.to_nat ((fst (tex_dims (lazy_tex self')) * snd (tex_dims (lazy_tex self'))) mod u32_modulus).
Proof.
  do 3 eexists.
  match goal with |- ?E = _ /\ _ => set (L := E) end.
  assert (HL : L = TextBuilt 1%nat
             (mkLazySDLText "Hey" 300 (mkColor 0 255 0 0) [] (mkLazyTexture [9; 9; 9; 9] (2, 2))) [])
    by reflexivity.
  split; [exact HL|].
  destruct (build_text_result_is_cache nat (fun n _ _ => n)
      (fun n => match n with
                | O => (1%nat, [], TextureTooSmall (2, 2))
                | S _ => (n, [(mkRect (0, 0) (2, 2), [9; 9; 9; 9])], BrushOk (Draw []))
                end)
      (fun n _ _ => n) always_ok2 always_ok_update
      3 O (LazySDLText_new "Hey" 300 (mkColor 0 255 0 0)) _ _ _ HL)
    as (Hres & _ & _ & _ & Hsized).
  split; [exact Hres|]. apply Hsized. reflexivity.
Defined.

(** ** Rendering *)

Lemma render_geometry_cases sdl tx vs is :
  render_geometry sdl tx vs is = ([], RenderOk) \/
  (exists c, render_geometry sdl tx vs is = ([EvGeometry c], RenderOk) /\
             gc_tex c = tx /\ gc_vers c = vs /\ vs <> [] /\ sdl c <> -1) \/
  (exists c, render_geometry sdl tx vs is = ([EvGeometry c], RenderErr) /\ sdl c = -1).
Proof.
  unfold render_geometry. destruct vs as [|v vs']; [left; reflexivity|right].
  set (c := mkGeometryCall _ _ _ _ _).
  destruct (Z.eqb_spec (sdl c) (-1)) as [Hf|Hf].
  - right. exists c. auto.
  - left. exists c. repeat split; auto; discriminate.
Qed.

Lemma render_polygons_cases sdl : forall ps,
  (exists calls, render_polygons sdl ps = (map EvGeometry calls, RenderOk) /\
     Forall (fun c => sdl c <> -1) calls /\
     map (fun c => (gc_tex c, gc_vers c)) calls
     = map (fun tp => (tex tp, vers (poly tp)))
         (filter (fun tp => (0 <? length (vers (poly tp)))%nat) ps)) \/
  (exists calls c, render_polygons sdl ps = (map EvGeometry calls ++ [EvGeometry c], RenderErr) /\
     Forall (fun c => sdl c <> -1) calls /\ sdl c = -1).
Proof.
  induction ps as [|tp rest IH].
  - left. exists []. auto.
  - cbn [render_polygons filter].
    destruct (render_geometry_cases sdl (tex tp) (vers (poly tp)) (inds (poly tp)))
      as [E | [(c & E & Ht & Hv & Hne & Hok) | (c & E & Hf)]]; rewrite E.
    + assert (Hz : vers (poly tp) = []).
      { revert E. unfold render_geometry. destruct (vers (poly tp)); [auto|].
        intros E. injection E as E _. discriminate. }
      assert (Hb : (0 <? length (vers (poly tp)))%nat = false) by (rewrite Hz; reflexivity).
      rewrite Hb.
      destruct IH as [(calls & E' & Hok' & Hm) | (calls & c & E' & Hok' & Hf)]; rewrite E'.
      * left. exists calls. auto.
      * right. exists calls, c. auto.
    + assert (Hb : (0 <? length (vers (poly tp)))%nat = true).
      { destruct (vers (poly tp)); [contradiction|reflexivity]. }
      rewrite Hb.
      destruct IH as [(calls & E' & Hok' & Hm) | (calls & c' & E' & Hok' & Hf)]; rewrite E'.
      * left. exists (c :: calls). cbn [map app]. repeat split; auto.
        rewrite Hm, Ht, Hv. reflexivity.
      * right. exists (c :: calls), c'. cbn [map app]. auto.
    + right. exists [], c. auto.
Qed.

Lemma render_bodies_cases sdl : forall bs,
  (exists calls, render_bodies sdl bs = (map EvGeometry calls, RenderOk) /\
     Forall (fun c => sdl c <> -1) calls /\
     map (fun c => (gc_tex c, gc_vers c)) calls
     = map (fun tp => (tex tp, vers (poly tp)))
         (filter (fun tp => (0 <? length (vers (poly tp)))%nat) (flat_map polygons bs))) \/
  (exists calls c, render_bodies sdl bs = (map EvGeometry calls ++ [EvGeometry c], RenderErr) /\
     Forall (fun c => sdl c <> -1) calls /\ sdl c = -1).
Proof.
  induction bs as [|body rest IH].
  - left. exists []. auto.
  - cbn [render_bodies flat_map]. rewrite filter_app, map_app.
    destruct (render_polygons_cases sdl (polygons body))
      as [(calls & E & Hok & Hm) | (calls & c & E & Hok & Hf)]; rewrite E.
    + destruct IH as [(calls' & E' & Hok' & Hm') | (calls' & c & E' & Hok' & Hf)]; rewrite E'.
      * left. exists (calls ++ calls'). rewrite !map_app, Hm, Hm'.
        repeat split; auto. apply Forall_app; auto.
      * right. exists (calls ++ calls'), c. rewrite map_app, app_assoc.
        repeat split; auto. apply Forall_app; auto.
    + right. exists calls, c. auto.
Qed.

(** When every [SDL_RenderGeometry] call succeeds and the copy succeeds,
    [SDLWindow::render] clears the canvas to black, submits every polygon
    that has vertices once, in order of bodies then polygons, with its own
    texture and vertices (polygons without vertices are skipped), then
    copies the texture and presents the frame, and returns [Ok]. *)
Theorem SDLWindow_render_all_ok :
  forall (sdl_render_geometry : GeometryCall -> Z) drawables,
    (forall c, sdl_render_geometry c <> -1) ->
    exists calls,
      SDLWindow_render sdl_render_geometry true drawables
      = ([EvSetDrawColor (0, 0, 0); EvClear] ++ map EvGeometry calls ++ [EvCopy; EvPresent],
         RenderOk) /\
      map (fun c => (gc_tex c, gc_vers c)) calls
      = map (fun tp => (tex tp, vers (poly tp)))
          (filter (fun tp => (0 <? length (vers (poly tp)))%nat) (flat_map polygons drawables)).
Proof.
  intros sdl drawables Hok. unfold SDLWindow_render.
  destruct (render_bodies_cases sdl drawables)
    as [(calls & E & _ & Hm) | (calls & c & E & _ & Hf)]; rewrite E.
  - exists calls. auto.
  - exfalso. exact (Hok c Hf).
Qed.

Lemma SDLWindow_render_all_ok_witness :
  exists calls,
    SDLWindow_render (fun _ => 0) true [RUIIcon_build CRUIIcon; MainMenu_build main_menu CRUIIcon]
    = ([EvSetDrawColor (0, 0, 0); EvClear] ++ map EvGeometry calls ++ [EvCopy; EvPresent],
       RenderOk) /\
    map (fun c => (gc_tex c, gc_vers c)) calls
    = map (fun tp => (tex tp, vers (poly tp)))
        (filter (fun tp => (0 <? length (vers (poly tp)))%nat)
           (flat_map polygons [RUIIcon_build CRUIIcon; MainMenu_build main_menu CRUIIcon])).
Proof.
  apply (SDLWindow_render_all_ok (fun _ => 0)
           [RUIIcon_build CRUIIcon; MainMenu_build main_menu CRUIIcon]).
  intros c. discriminate.
Defined.

(** [SDLWindow::render] presents a frame only when it returns [Ok]: on a
    failed [SDL_RenderGeometry] call it returns [Err] right after that
    call, with no further submission, no copy and no present; when the
    copy fails it panics before presenting. *)
Theorem SDLWindow_render_outcomes :
  forall (sdl_render_geometry : GeometryCall -> Z) copy_ok drawables,
    let pre := [EvSetDrawColor (0, 0, 0); EvClear] in
    match SDLWindow_render sdl_render_geometry copy_ok drawables with
    | (ev, RenderOk) =>
        copy_ok = true /\ exists calls, ev = pre ++ map EvGeometry calls ++ [EvCopy; EvPresent] /\
          Forall (fun c => sdl_render_geometry c <> -1) calls
    | (ev, RenderErr) =>
        exists calls c, ev = pre ++ map EvGeometry calls ++ [EvGeometry c] /\
          Forall (fun c => sdl_render_geometry c <> -1) calls /\ sdl_render_geometry c = -1
    | (ev, RenderPanic) =>
        copy_ok = false /\ exists calls, ev = pre ++ map EvGeometry calls ++ [EvCopy] /\
          Forall (fun c => sdl_render_geometry c <> -1) calls
    end.
Proof.
  intros sdl copy_ok drawables pre. unfold SDLWindow_render.
  destruct (render_bodies_cases sdl drawables)
    as [(calls & E & Hok & _) | (calls & c & E & Hok & Hf)]; rewrite E.
  - destruct copy_ok.
    + split; [reflexivity|]. exists calls. auto.
    + split; [reflexivity|]. exists calls. auto.
  - exists calls, c. auto.
Qed.

(** ** [into_vertex] *)

(** Both [into_vertex] build a quad of 4 vertices drawn as the triangles
    [0 1 2] and [2 3 0], so every index is a valid vertex index; every
    vertex is white, with alpha 255 in [playground.rs] and 128 in
    [engines.rs], and takes its position and its texture coordinate from
    the same corner of the glyph's pixel and texture rectangles. *)
Theorem into_vertex_quad :
  forall F (vd : GlyphVertex F),
    let corner_ok alpha (v : SDL_VertexF F) :=
      fcolor v = (255, 255, 255, alpha) /\
      exists sx sy : bool,
        fposition v = (if sx then fst (fr_max (pixel_coords vd)) else fst (fr_min (pixel_coords vd)),
                       if sy then snd (fr_max (pixel_coords vd)) else snd (fr_min (pixel_coords vd))) /\
        ftex_coord v = (if sx then fst (fr_max (tex_coords vd)) else fst (fr_min (tex_coords vd)),
                        if sy then snd (fr_max (tex_coords vd)) else snd (fr_min (tex_coords vd))) in
    let quad_ok alpha (p : SDLPolygonF F) :=
      length (fvers p) = 4%nat /\ finds p = [0; 1; 2; 2; 3; 0] /\
      Forall (fun i => 0 <= i < Z.of_nat (length (fvers p))) (finds p) /\
      Forall (corner_ok alpha) (fvers p) in
    quad_ok 255 (into_vertex_playground vd) /\ quad_ok 128 (into_vertex_engines vd).
Proof.
  intros F vd corner_ok quad_ok.
  assert (H : forall alpha, quad_ok alpha (into_vertex_with alpha vd)).
  { intros alpha. unfold quad_ok, corner_ok, into_vertex_with. cbn [fvers finds length].
    split; [reflexivity|]. split; [reflexivity|].
    split; [repeat constructor; simpl; lia|].
    repeat constructor;
      [exists false, false | exists false, true | exists true, true | exists true, false];
      auto. }
  split; apply H.
Qed.

(** ** [lazy_update] on an empty buffer *)

(** On a texture whose buffer is empty (as [new_empty] leaves it, before
    any [resize]), [lazy_update] writes nothing and reports a size mismatch
    for any non-empty data, whatever the dimensions and the rectangle. *)
Theorem lazy_update_empty_buffer :
  forall t rect tex_data,
    raw_data t = [] ->
    lazy_update t rect tex_data
    = match tex_data with
      | [] => UOk t
      | _ :: _ => USizeMismatch t
      end.
Proof.
  intros [raw dims] rect tex_data Hnil. cbn [raw_data] in Hnil. subst raw.
  unfold lazy_update. cbn [raw_data tex_dims lazy_update_loop].
  destruct tex_data; reflexivity.
Qed.

Lemma lazy_update_empty_buffer_witness :
  lazy_update new_empty (mkRect (0, 0) (1, 1)) [42] = USizeMismatch new_empty.
Proof.
  apply (lazy_update_empty_buffer new_empty (mkRect (0, 0) (1, 1)) [42]). reflexivity.
Defined.
